(** * asyncOperations.js: three styles of asynchronous file reading

    A shallow embedding of [src/asyncOperations.js] and the properties of its
    readers, demonstrators and sequential multi-file reader.

    The script talks to two parts of the Node.js runtime: the file system
    ([fs.readFile] in its callback and promise flavours) and the console.
    Both are modelled by a chronological trace of events; a computation is
    a completion (normal return or thrown exception) together with the
    events it produced. *)

From stdpp Require Import gmap strings list pretty.

(* ===================================================================== *)
(** ** JavaScript strings *)
(* ===================================================================== *)

(** A JavaScript string is a sequence of code units; [String.string] plays
    that role here, one [ascii] per code unit, and [String.length] is the
    [.length] property. *)

(** The line feed of the ['\n'] escape. *)
Definition LF : string := String (Ascii.ascii_of_nat 10) EmptyString.

(** The code unit 0 of the ['\0'] escape. *)
Definition NUL : string := String Ascii.zero EmptyString.

(** [s.includes('\0')]. *)
Fixpoint includes_NUL (s : string) : bool :=
  match s with
  | EmptyString => false
  | String c s' => Ascii.eqb c Ascii.zero || includes_NUL s'
  end.

(** [s.substring(indexStart, indexEnd)]: both indices are clamped to the
    length of [s] and swapped when [indexStart > indexEnd]. *)
Definition substring (s : string) (indexStart indexEnd : nat) : string :=
  let a := indexStart `min` String.length s in
  let b := indexEnd `min` String.length s in
  String.substring (a `min` b) ((a `max` b) - (a `min` b)) s.

(** [s.repeat(count)]. *)
Fixpoint repeat (s : string) (count : nat) : string :=
  match count with
  | O => ""
  | S count' => s +:+ repeat s count'
  end.

(* ===================================================================== *)
(** ** Errors and the file system *)
(* ===================================================================== *)

(** A JavaScript [Error] object, reduced to the properties the script and
    the runtime use: the name of its class, the system error code when it
    has one, and the message. *)
Record Error := mkError { name : string; code : option string; message : string }.

(** What Node.js raises for a path with no directory entry. *)
Definition ENOENT (path : string) : Error :=
  {| name := "Error";
     code := Some "ENOENT";
     message := "ENOENT: no such file or directory, open '" +:+ path +:+ "'" |}.

(** What the path validation of Node.js raises for a path with a NUL code
    unit.  In Node.js the message goes on with the received value; that
    part is left out, and nothing depends on the message. *)
Definition ERR_INVALID_ARG_VALUE : Error :=
  {| name := "TypeError";
     code := Some "ERR_INVALID_ARG_VALUE";
     message := "The argument 'path' must be a string, Uint8Array, or URL without null bytes." |}.

(** What the engine raises for [null.substring(...)]. *)
Definition TypeError_null (property : string) : Error :=
  {| name := "TypeError";
     code := None;
     message := "Cannot read properties of null (reading '" +:+ property +:+ "')" |}.

(** A directory entry either yields its UTF-8 decoded content or fails with
    an I/O error of its own (a directory, a permission problem, ...). *)
Inductive entry :=
| Readable (content : string)
| Unreadable (err : Error).

(** The working directory: a finite map from path to entry.  A path that is
    not in the map is a missing file. *)
Abbreviation FileSystem := (gmap string entry).

(** The outcome of one [readFile(path, 'utf8')]. *)
Definition read_outcome (fs : FileSystem) (path : string) : Error + string :=
  match fs !! path with
  | Some (Readable content) => inr content
  | Some (Unreadable err) => inl err
  | None => inl (ENOENT path)
  end.

(* ===================================================================== *)
(** ** Traces and computations *)
(* ===================================================================== *)

Inductive event :=
| ConsoleLog (args : list string)        (* console.log(...args) *)
| ConsoleError (args : list string)      (* console.error(...args) *)
| FsRead (path : string)                 (* a read issued to the file system *)
| UncaughtException (e : Error)          (* an exception reached the event loop *)
| UnhandledRejection (e : Error).        (* a rejected promise had no handler *)

Abbreviation trace := (list event).

Inductive completion (A : Type) :=
| Normal (a : A)
| Throw (e : Error).
Arguments Normal {A} a.
Arguments Throw {A} e.

(** A computation: how it completes, and the events it produced, oldest
    first.  Nothing in the script reads the console back, so the events
    are output only. *)
Definition IO (A : Type) : Type := completion A * trace.

Definition ret {A} (a : A) : IO A := (Normal a, []).

Definition throw {A} (e : Error) : IO A := (Throw e, []).

Definition bind {A B} (m : IO A) (k : A → IO B) : IO B :=
  match m with
  | (Normal a, out) => let (r, out') := k a in (r, out ++ out')
  | (Throw e, out) => (Throw e, out)
  end.

Notation "x <- m ;; k" := (bind m (λ x, k))
  (at level 100, m at next level, right associativity).
Notation "m ;; k" := (bind m (λ _, k))
  (at level 100, right associativity).

Definition emit (ev : event) : IO unit := (Normal tt, [ev]).

Definition console_log (args : list string) : IO unit := emit (ConsoleLog args).
Definition console_error (args : list string) : IO unit := emit (ConsoleError args).

(** [try { body } catch (error) { handler }]. *)
Definition try_catch {A} (body : IO A) (handler : Error → IO A) : IO A :=
  match body with
  | (Normal a, out) => (Normal a, out)
  | (Throw e, out) => let (r, out') := handler e in (r, out ++ out')
  end.

(** *** Promises

    Every demonstration runs its asynchronous steps one after the other, so
    a promise is represented by its settlement. *)
Inductive Promise (A : Type) :=
| Fulfilled (a : A)
| Rejected (reason : Error).
Arguments Fulfilled {A} a.
Arguments Rejected {A} reason.

(** The promise built from a function body: fulfilled with what the body
    returns, rejected with what it throws.  This is what calling an
    [async function] gives, and what a [then] or [catch] handler gives. *)
Definition settle {A} (body : IO A) : IO (Promise A) :=
  match body with
  | (Normal a, out) => (Normal (Fulfilled a), out)
  | (Throw e, out) => (Normal (Rejected e), out)
  end.

Definition async {A} (body : IO A) : IO (Promise A) := settle body.

(** [await p]. *)
Definition await {A} (p : Promise A) : IO A :=
  match p with
  | Fulfilled a => ret a
  | Rejected e => throw e
  end.

(** [p.then(onFulfilled)] where the handler returns a plain value. *)
Definition then_ {A B} (p : Promise A) (onFulfilled : A → IO B) : IO (Promise B) :=
  match p with
  | Fulfilled a => settle (onFulfilled a)
  | Rejected e => ret (Rejected e)
  end.

(** [p.then(onFulfilled)] where the handler returns a promise, which the
    result adopts. *)
Definition then_promise {A B} (p : Promise A) (onFulfilled : A → IO (Promise B))
  : IO (Promise B) :=
  match p with
  | Fulfilled a =>
      match onFulfilled a with
      | (Normal q, out) => (Normal q, out)
      | (Throw e, out) => (Normal (Rejected e), out)
      end
  | Rejected e => ret (Rejected e)
  end.

(** [p.catch(onRejected)]. *)
Definition catch_ {A} (p : Promise A) (onRejected : Error → IO A) : IO (Promise A) :=
  match p with
  | Fulfilled a => ret (Fulfilled a)
  | Rejected e => settle (onRejected e)
  end.

(** A promise used as an expression statement: nobody can attach a handler
    any more, so a rejection is reported by the runtime. *)
Definition discard {A} (p : Promise A) : IO unit :=
  match p with
  | Fulfilled _ => ret tt
  | Rejected e => emit (UnhandledRejection e)
  end.

(** A callback run by the event loop: what it throws reaches no caller but
    the runtime. *)
Definition run_task (task : IO unit) : IO unit :=
  match task with
  | (Normal _, out) => (Normal tt, out)
  | (Throw e, out) => (Normal tt, out ++ [UncaughtException e])
  end.

(** The files read, oldest first. *)
Fixpoint reads (t : trace) : list string :=
  match t with
  | [] => []
  | FsRead path :: t' => path :: reads t'
  | _ :: t' => reads t'
  end.

(** The errors that reached the runtime unhandled. *)
Fixpoint crashes (t : trace) : list Error :=
  match t with
  | [] => []
  | UncaughtException e :: t' => e :: crashes t'
  | UnhandledRejection e :: t' => e :: crashes t'
  | _ :: t' => crashes t'
  end.

(** [data.substring(indexStart, indexEnd)] on a value that may be [null]. *)
Definition method_substring (data : option string) (indexStart indexEnd : nat)
  : IO string :=
  match data with
  | Some s => ret (substring s indexStart indexEnd)
  | None => throw (TypeError_null "substring")
  end.

(** The values stored in the result records, and the records themselves:
    JavaScript objects as finite maps from property name to value. *)
Inductive value :=
| Str (s : string)
| Num (n : nat).

Abbreviation object := (gmap string value).

(** The double quote written inside a template literal. *)
Definition DQUOTE : string := String (Ascii.ascii_of_nat 34) EmptyString.

(** The value of [result.property] is [None] when the object has no such
    property ([undefined]).  This is its truthiness as the condition of an
    [if]: [undefined], the empty string and 0 are falsy. *)
Definition truthy (v : option value) : bool :=
  match v with
  | None => false
  | Some (Str s) => negb (String.eqb s "")
  | Some (Num n) => negb (n =? 0)
  end.

(** The text of a value interpolated in a template literal. *)
Definition interpolate (v : option value) : string :=
  match v with
  | None => "undefined"
  | Some (Str s) => s
  | Some (Num n) => pretty n
  end.

(** [array.forEach(callback)], entered at [index] with the elements from
    there on; the callback receives the element and its index. *)
Fixpoint forEach_from {A} (index : nat) (array : list A)
    (callback : A → nat → IO unit) : IO unit :=
  match array with
  | [] => ret tt
  | element :: array' =>
      callback element index ;;
      forEach_from (index + 1) array' callback
  end.

Definition forEach {A} (array : list A) (callback : A → nat → IO unit) : IO unit :=
  forEach_from 0 array callback.

Section Script.

Context (fs : FileSystem).

(** [fs.readFile(path, 'utf8')] of [require('fs').promises]. *)
Definition fs_readFile (path : string) : IO (Promise string) :=
  emit (FsRead path) ;;
  ret (match read_outcome fs path with
       | inr data => Fulfilled data
       | inl err => Rejected err
       end).

(** The path validation that [fsCallback.readFile] runs before any I/O: a
    path with a NUL code unit is refused.  No file has such a name, so a
    path the working directory gives content for is a valid one. *)
Definition path_refused (path : string) : bool :=
  includes_NUL path
  && match read_outcome fs path with
     | inr _ => false
     | inl _ => true
     end.

(** [fsCallback.readFile(path, 'utf8', callback)] of [require('fs')].  A
    refused path makes the call itself throw: no read is issued and the
    callback never runs.  Otherwise the callback is run by the event loop
    with [(err, undefined)] or [(null, data)]; the argument [null] and the
    absent argument are both [None]. *)
Definition fsCallback_readFile (path : string)
    (callback : option Error → option string → IO unit) : IO unit :=
  if path_refused path then throw ERR_INVALID_ARG_VALUE
  else
    emit (FsRead path) ;;
    run_task (match read_outcome fs path with
              | inl err => callback (Some err) None
              | inr data => callback None (Some data)
              end).

(** *** 1. Callback-based approach *)

Definition readFileWithCallback (filename : string)
    (callback : option Error → option string → IO unit) : IO unit :=
  console_log [LF +:+ "1. CALLBACK: Reading " +:+ filename +:+ "..."] ;;
  fsCallback_readFile filename (λ err data,
    match err with
    | Some _ => callback err None
    | None => callback None data
    end).

Definition demonstrateCallbacks : IO unit :=
  console_log [LF +:+ "DEMONSTRATING CALLBACK-BASED APPROACH"] ;;
  console_log [repeat "-" 50] ;;
  readFileWithCallback "file1.txt" (λ err data,
    match err with
    | Some e => console_error ["Callback Error:"; message e]
    | None =>
        preview <- method_substring data 0 50 ;;
        console_log ["Callback Success - File 1 content preview:"; preview +:+ "..."] ;;
        readFileWithCallback "file2.txt" (λ err data2,
          match err with
          | Some e => console_error ["Callback Error:"; message e]
          | None =>
              preview2 <- method_substring data2 0 50 ;;
              console_log ["Callback Success - File 2 content preview:"; preview2 +:+ "..."]
          end)
    end).

(** *** 2. Promise-based approach *)

Definition readFileWithPromises (filename : string) : IO (Promise string) :=
  console_log [LF +:+ "2. PROMISE: Reading " +:+ filename +:+ "..."] ;;
  p <- fs_readFile filename ;;
  p <- then_ p (λ data,
        console_log ["Promise resolved for " +:+ filename] ;;
        ret data) ;;
  catch_ p (λ error,
        console_error ["Promise rejected for " +:+ filename +:+ ":"; message error] ;;
        throw error).

Definition demonstratePromises : IO unit :=
  console_log [LF +:+ "DEMONSTRATING PROMISE-BASED APPROACH"] ;;
  console_log [repeat "-" 50] ;;
  p <- readFileWithPromises "file1.txt" ;;
  p <- then_promise p (λ data1,
        console_log ["Promise - File 1 preview:"; substring data1 0 50 +:+ "..."] ;;
        readFileWithPromises "file2.txt") ;;
  p <- then_promise p (λ data2,
        console_log ["Promise - File 2 preview:"; substring data2 0 50 +:+ "..."] ;;
        readFileWithPromises "file3.txt") ;;
  p <- then_ p (λ data3,
        console_log ["Promise - File 3 preview:"; substring data3 0 50 +:+ "..."] ;;
        console_log ["All promises completed successfully!"]) ;;
  p <- catch_ p (λ error,
        console_error ["Promise chain error:"; message error]) ;;
  discard p.

(** *** 3. Async/await approach *)

Definition readFileWithAsyncAwait (filename : string) : IO (Promise string) :=
  async (
    console_log [LF +:+ "3. ASYNC/AWAIT: Reading " +:+ filename +:+ "..."] ;;
    try_catch
      (p <- fs_readFile filename ;;
       data <- await p ;;
       console_log ["Async/await completed for " +:+ filename] ;;
       ret data)
      (λ error,
       console_error ["Async/await error for " +:+ filename +:+ ":"; message error] ;;
       throw error)).

Definition demonstrateAsyncAwait : IO (Promise unit) :=
  async (
    console_log [LF +:+ "DEMONSTRATING ASYNC/AWAIT APPROACH"] ;;
    console_log [repeat "-" 50] ;;
    try_catch
      (p <- readFileWithAsyncAwait "file1.txt" ;;
       data1 <- await p ;;
       console_log ["Async/Await - File 1 preview:"; substring data1 0 50 +:+ "..."] ;;
       p <- readFileWithAsyncAwait "file2.txt" ;;
       data2 <- await p ;;
       console_log ["Async/Await - File 2 preview:"; substring data2 0 50 +:+ "..."] ;;
       p <- readFileWithAsyncAwait "file3.txt" ;;
       data3 <- await p ;;
       console_log ["Async/Await - File 3 preview:"; substring data3 0 50 +:+ "..."] ;;
       console_log ["All async/await operations completed!"])
      (λ error,
       console_error ["Async/await error:"; message error])).

(** *** 4. Sequential file reading with async/await *)

(** The record pushed when the read succeeds. *)
Definition success_record (filename content : string) : object :=
  {[ "filename" := Str filename;
     "content" := Str content;
     "length" := Num (String.length content);
     "preview" := Str (substring content 0 60 +:+ "...") ]}.

(** The record pushed when the read fails. *)
Definition error_record (filename : string) (error : Error) : object :=
  {[ "filename" := Str filename;
     "error" := Str (message error) ]}.

(** The [for] loop, entered with [i] and the entries [fileList[i..]] still
    to visit; [results] is the array pushed to.  The only statement of the
    [try] block that can throw is the [await], which comes before the
    [push], so the handler pushes to the array as it was on entry. *)
Fixpoint for_loop (fileList : list string) (i : nat) (rest : list string)
    (results : list object) : IO (list object) :=
  match rest with
  | [] => ret results
  | filename :: rest' =>
      console_log [LF +:+ pretty (i + 1) +:+ "/" +:+ pretty (length fileList)
                   +:+ ": Reading " +:+ filename +:+ "..."] ;;
      results <- try_catch
        (p <- fs_readFile filename ;;
         content <- await p ;;
         let results := results ++ [success_record filename content] in
         console_log ["Successfully read " +:+ filename +:+ " ("
                      +:+ pretty (String.length content) +:+ " characters)"] ;;
         ret results)
        (λ error,
         console_error ["Failed to read " +:+ filename +:+ ":"; message error] ;;
         ret (results ++ [error_record filename error])) ;;
      for_loop fileList (i + 1) rest' results
  end.

Definition readMultipleFilesSequentially (fileList : list string)
  : IO (Promise (list object)) :=
  async (
    console_log [LF +:+ "DEMONSTRATING SEQUENTIAL FILE READING"] ;;
    console_log [repeat "-" 50] ;;
    console_log ["Reading " +:+ pretty (length fileList) +:+ " files sequentially..."] ;;
    for_loop fileList 0 fileList []).

(** *** Main execution *)

(** Sample files to read. *)
Definition files : list string := ["file1.txt"; "file2.txt"; "file3.txt"].

(** The callback [main] passes to [sequentialResults.forEach]. *)
Definition print_result (result : object) (index : nat) : IO unit :=
  if truthy (result !! "error")
  then console_log [pretty (index + 1) +:+ ". " +:+ interpolate (result !! "filename")
                    +:+ ": ERROR - " +:+ interpolate (result !! "error")]
  else console_log [pretty (index + 1) +:+ ". " +:+ interpolate (result !! "filename")
                    +:+ ": " +:+ interpolate (result !! "length") +:+ " chars - "
                    +:+ DQUOTE +:+ interpolate (result !! "preview") +:+ DQUOTE].

(** The [async] callback [main] schedules with [setTimeout(..., 2000)]. *)
Definition main_timeout_2000 : IO (Promise unit) :=
  async (
    p <- demonstrateAsyncAwait ;;
    await p ;;
    p <- readMultipleFilesSequentially files ;;
    sequentialResults <- await p ;;
    console_log [LF +:+ repeat "=" 60] ;;
    console_log ["SEQUENTIAL READING RESULTS:"] ;;
    console_log [repeat "-" 30] ;;
    forEach sequentialResults print_result ;;
    console_log [LF +:+ repeat "=" 60] ;;
    console_log ["All async operations completed successfully!"] ;;
    console_log ["Check the comparison write-up below for differences between approaches."]).

End Script.

(* ===================================================================== *)
(** ** Observations used to state the properties *)
(* ===================================================================== *)

(** The record the loop of the sequential reader pushes for one entry. *)
Definition record_of (fs : FileSystem) (filename : string) : object :=
  match read_outcome fs filename with
  | inr content => success_record filename content
  | inl error => error_record filename error
  end.

(** The entries of a chain of reads that are reached when the chain stops
    at its first failure: everything up to and including the first entry
    that cannot be read. *)
Fixpoint until_failure (fs : FileSystem) (chain : list string) : list string :=
  match chain with
  | [] => []
  | filename :: chain' =>
      match read_outcome fs filename with
      | inr _ => filename :: until_failure fs chain'
      | inl _ => [filename]
      end
  end.

(** The error of the first entry of a chain that cannot be read. *)
Fixpoint first_failure (fs : FileSystem) (chain : list string) : option Error :=
  match chain with
  | [] => None
  | filename :: chain' =>
      match read_outcome fs filename with
      | inr _ => first_failure fs chain'
      | inl error => Some error
      end
  end.

(** The property names of the two shapes of result record. *)
Definition success_shape : gset string :=
  {[ "filename"; "content"; "length"; "preview" ]}.
Definition error_shape : gset string :=
  {[ "filename"; "error" ]}.

(** The first [n] characters of a string, or the full string if it is
    shorter than [n] characters: the preview as the specification words
    it, to be compared with what [substring] computes. *)
Definition first_characters (n : nat) (content : string) : string :=
  if decide (String.length content < n) then content
  else String.substring 0 n content.

(** A success record for [filename] with the given content: the four
    properties of the success shape and no other, the content, its length,
    and a preview made of [lead] followed by the literal ellipsis. *)
Definition is_success_record (filename content lead : string) (r : object) : Prop :=
  dom r = success_shape
  ∧ r !! "filename" = Some (Str filename)
  ∧ r !! "content" = Some (Str content)
  ∧ r !! "length" = Some (Num (String.length content))
  ∧ r !! "preview" = Some (Str (lead +:+ "...")).

(** An error record for [filename]: the two properties of the error shape
    and no other, with the message of the error. *)
Definition is_error_record (filename : string) (error : Error) (r : object) : Prop :=
  dom r = error_shape
  ∧ r !! "filename" = Some (Str filename)
  ∧ r !! "error" = Some (Str (message error)).

(** A callback that reports each of its invocations, with the arguments it
    was given, on the console. *)
Definition spy (err : option Error) (data : option string) : IO unit :=
  console_log ["spy";
               match err with Some e => message e | None => "null" end;
               match data with Some d => d | None => "null" end].

(** A working directory with [file1.txt] and [file3.txt] but no
    [file2.txt]. *)
Definition example_fs : FileSystem :=
  {[ "file1.txt" := Readable "hello world";
     "file3.txt" := Readable "The quick brown fox jumps over the lazy dog, again and again and again." ]}.

(** The arguments of the [console.error] calls, oldest first. *)
Fixpoint console_errors (t : trace) : list (list string) :=
  match t with
  | [] => []
  | ConsoleError args :: t' => args :: console_errors t'
  | _ :: t' => console_errors t'
  end.

(** The first entry of a chain that cannot be read, with its error. *)
Fixpoint failing_entry (fs : FileSystem) (chain : list string)
  : option (string * Error) :=
  match chain with
  | [] => None
  | filename :: chain' =>
      match read_outcome fs filename with
      | inr _ => failing_entry fs chain'
      | inl error => Some (filename, error)
      end
  end.

(** The summary line of the entry at [index], from the outcome of its
    read. *)
Definition summary_line (fs : FileSystem) (index : nat) (filename : string) : string :=
  match read_outcome fs filename with
  | inl error =>
      pretty (index + 1) +:+ ". " +:+ filename +:+ ": ERROR - " +:+ message error
  | inr content =>
      pretty (index + 1) +:+ ". " +:+ filename +:+ ": "
      +:+ pretty (String.length content) +:+ " chars - "
      +:+ DQUOTE +:+ (substring content 0 60 +:+ "...") +:+ DQUOTE
  end.

(** A path with a NUL code unit in it, the JavaScript ['a\0b']. *)
Definition NUL_path : string := "a" +:+ NUL +:+ "b".

(** A callback that throws whatever it is given. *)
Definition throwing_callback (err : option Error) (data : option string) : IO unit :=
  throw (TypeError_null "length").

(** A working directory whose only entry cannot be opened. *)
Definition locked_fs : FileSystem :=
  {[ "secret.txt" :=
       Unreadable {| name := "Error"; code := Some "EACCES";
                     message := "EACCES: permission denied, open 'secret.txt'" |} ]}.

(* ===================================================================== *)
(** ** Basic facts *)
(* ===================================================================== *)

(** Runs the promise and exception plumbing of a chain whose reads are
    known. *)
Local Ltac run_chain :=
  cbv [bind then_ then_promise catch_ settle async await try_catch discard
       ret throw console_log console_error emit run_task snd fst
       method_substring].

(** The monad laws of [IO]. *)
Lemma bind_ret_l {A B} (a : A) (k : A → IO B) : (x <- ret a ;; k x) = k a.
Proof. unfold bind, ret. by destruct (k a). Qed.

Lemma bind_ret_r {A} (m : IO A) : (x <- m ;; ret x) = m.
Proof. destruct m as [[a|e] out]; [|done]. unfold bind, ret. by rewrite app_nil_r. Qed.

Lemma bind_assoc {A B C} (m : IO A) (k : A → IO B) (h : B → IO C) :
  (y <- (x <- m ;; k x) ;; h y) = (x <- m ;; y <- k x ;; h y).
Proof.
  destruct m as [[a|e] out]; [|done]. unfold bind.
  destruct (k a) as [[b|e] out']; [|done].
  destruct (h b) as [r out'']. by rewrite app_assoc.
Qed.

(** The script on the example directory, where [file2.txt] is missing. *)
Example demonstrateCallbacks_example :
  demonstrateCallbacks example_fs
  = (Normal tt,
     [ConsoleLog [LF +:+ "DEMONSTRATING CALLBACK-BASED APPROACH"];
      ConsoleLog ["--------------------------------------------------"];
      ConsoleLog [LF +:+ "1. CALLBACK: Reading file1.txt..."];
      FsRead "file1.txt";
      ConsoleLog ["Callback Success - File 1 content preview:"; "hello world..."];
      ConsoleLog [LF +:+ "1. CALLBACK: Reading file2.txt..."];
      FsRead "file2.txt";
      ConsoleError ["Callback Error:";
                    "ENOENT: no such file or directory, open 'file2.txt'"]]).
Proof. reflexivity. Qed.

Example demonstratePromises_example :
  demonstratePromises example_fs
  = (Normal tt,
     [ConsoleLog [LF +:+ "DEMONSTRATING PROMISE-BASED APPROACH"];
      ConsoleLog ["--------------------------------------------------"];
      ConsoleLog [LF +:+ "2. PROMISE: Reading file1.txt..."];
      FsRead "file1.txt";
      ConsoleLog ["Promise resolved for file1.txt"];
      ConsoleLog ["Promise - File 1 preview:"; "hello world..."];
      ConsoleLog [LF +:+ "2. PROMISE: Reading file2.txt..."];
      FsRead "file2.txt";
      ConsoleError ["Promise rejected for file2.txt:";
                    "ENOENT: no such file or directory, open 'file2.txt'"];
      ConsoleError ["Promise chain error:";
                    "ENOENT: no such file or directory, open 'file2.txt'"]]).
Proof. reflexivity. Qed.

Example readMultipleFilesSequentially_example :
  readMultipleFilesSequentially example_fs ["file1.txt"; "file2.txt"; "file3.txt"]
  = (Normal (Fulfilled
       [ {[ "filename" := Str "file1.txt"; "content" := Str "hello world";
            "length" := Num 11; "preview" := Str "hello world..." ]};
         {[ "filename" := Str "file2.txt";
            "error" := Str "ENOENT: no such file or directory, open 'file2.txt'" ]};
         {[ "filename" := Str "file3.txt";
            "content" := Str "The quick brown fox jumps over the lazy dog, again and again and again.";
            "length" := Num 71;
            "preview" := Str "The quick brown fox jumps over the lazy dog, again and again..." ]} ]),
     [ConsoleLog [LF +:+ "DEMONSTRATING SEQUENTIAL FILE READING"];
      ConsoleLog ["--------------------------------------------------"];
      ConsoleLog ["Reading 3 files sequentially..."];
      ConsoleLog [LF +:+ "1/3: Reading file1.txt..."];
      FsRead "file1.txt";
      ConsoleLog ["Successfully read file1.txt (11 characters)"];
      ConsoleLog [LF +:+ "2/3: Reading file2.txt..."];
      FsRead "file2.txt";
      ConsoleError ["Failed to read file2.txt:";
                    "ENOENT: no such file or directory, open 'file2.txt'"];
      ConsoleLog [LF +:+ "3/3: Reading file3.txt..."];
      FsRead "file3.txt";
      ConsoleLog ["Successfully read file3.txt (71 characters)"]]).
Proof. reflexivity. Qed.

Lemma reads_app (t1 t2 : trace) : reads (t1 ++ t2) = reads t1 ++ reads t2.
Proof.
  induction t1 as [|ev t1 IH]; [done|].
  destruct ev; simpl; by rewrite ?IH.
Qed.

Lemma crashes_app (t1 t2 : trace) : crashes (t1 ++ t2) = crashes t1 ++ crashes t2.
Proof.
  induction t1 as [|ev t1 IH]; [done|].
  destruct ev; simpl; by rewrite ?IH.
Qed.

Lemma String_app_cons (c : Ascii.ascii) (s1 s2 : string) :
  String c s1 +:+ s2 = String c (s1 +:+ s2).
Proof. reflexivity. Qed.

Lemma String_app_nil_r (s : string) : s +:+ "" = s.
Proof. induction s as [|c s IH]; [done|]. by rewrite String_app_cons, IH. Qed.

Lemma String_length_app (s1 s2 : string) :
  String.length (s1 +:+ s2) = String.length s1 + String.length s2.
Proof.
  induction s1 as [|c s1 IH]; [done|].
  rewrite String_app_cons. simpl. by rewrite IH.
Qed.

(** [String.substring] from index 0 yields a prefix of the string, as long
    as the string allows. *)
Lemma String_substring_0_prefix (n : nat) (s : string) :
  ∃ rest, s = String.substring 0 n s +:+ rest
          ∧ String.length (String.substring 0 n s) = n `min` String.length s.
Proof.
  revert n; induction s as [|c s IH]; intros [|n]; simpl.
  - by exists "".
  - by exists "".
  - by exists (String c s).
  - destruct (IH n) as (rest & Heq & Hlen).
    exists rest. split; [|by rewrite Hlen].
    rewrite String_app_cons. by f_equal.
Qed.

Lemma substring_0_prefix (s : string) (n : nat) :
  ∃ rest, s = substring s 0 n +:+ rest
          ∧ String.length (substring s 0 n) = n `min` String.length s.
Proof.
  unfold substring.
  replace ((0 `min` String.length s) `min` (n `min` String.length s)) with 0 by lia.
  replace ((0 `min` String.length s) `max` (n `min` String.length s) - 0)
    with (n `min` String.length s) by lia.
  destruct (String_substring_0_prefix (n `min` String.length s) s) as (rest & Heq & Hlen).
  exists rest. split; [done|]. rewrite Hlen. lia.
Qed.

Lemma substring_0_short (s : string) (n : nat) :
  String.length s ≤ n → substring s 0 n = s.
Proof.
  intros Hle. destruct (substring_0_prefix s n) as (rest & Heq & Hlen).
  assert (Hl : String.length s = String.length (substring s 0 n +:+ rest))
    by (by rewrite <- Heq).
  rewrite String_length_app, Hlen in Hl.
  destruct rest; [|simpl in Hl; lia].
  rewrite Heq at 2. by rewrite String_app_nil_r.
Qed.

(** The loop visits every remaining entry and pushes one record for each. *)
Lemma for_loop_run (fs : FileSystem) (fileList rest : list string) (i : nat)
    (results : list object) :
  ∃ out, for_loop fs fileList i rest results
           = (Normal (results ++ (record_of fs <$> rest)), out)
         ∧ reads out = rest ∧ crashes out = [].
Proof.
  revert i results. induction rest as [|filename rest IH]; intros i results.
  - exists []. simpl. by rewrite app_nil_r.
  - cbn [for_loop fmap list_fmap].
    unfold record_of at 1, fs_readFile.
    destruct (read_outcome fs filename) as [error|content].
    + destruct (IH (i + 1) (results ++ [error_record filename error]))
        as (out & Heq & Hreads & Hcrashes).
      cbv [bind console_log console_error emit try_catch await ret throw].
      rewrite Heq. eexists. split; [by rewrite <- app_assoc|].
      rewrite !reads_app, !crashes_app, Hreads, Hcrashes. done.
    + destruct (IH (i + 1) (results ++ [success_record filename content]))
        as (out & Heq & Hreads & Hcrashes).
      cbv [bind console_log console_error emit try_catch await ret throw].
      rewrite Heq. eexists. split; [by rewrite <- app_assoc|].
      rewrite !reads_app, !crashes_app, Hreads, Hcrashes. done.
Qed.

(** The sequential reader fulfils with one record per entry, in order. *)
Lemma readMultipleFilesSequentially_run (fs : FileSystem) (fileList : list string) :
  ∃ out, readMultipleFilesSequentially fs fileList
           = (Normal (Fulfilled (record_of fs <$> fileList)), out)
         ∧ reads out = fileList ∧ crashes out = [].
Proof.
  unfold readMultipleFilesSequentially.
  destruct (for_loop_run fs fileList fileList 0 []) as (out & Heq & Hreads & Hcrashes).
  cbv [async settle bind console_log emit].
  rewrite Heq. eexists. split; [done|].
  rewrite !reads_app, !crashes_app, Hreads, Hcrashes. done.
Qed.

(** The records and their properties. *)
Lemma success_record_dom (filename content : string) :
  dom (success_record filename content) = success_shape.
Proof.
  unfold success_record, success_shape.
  rewrite !dom_insert_L, dom_singleton_L. set_solver.
Qed.

Lemma error_record_dom (filename : string) (error : Error) :
  dom (error_record filename error) = error_shape.
Proof.
  unfold error_record, error_shape.
  rewrite !dom_insert_L, dom_singleton_L. set_solver.
Qed.

Lemma success_record_preview (filename content : string) :
  success_record filename content !! "preview"
  = Some (Str (substring content 0 60 +:+ "...")).
Proof. reflexivity. Qed.

Lemma success_record_is_success (filename content : string) :
  is_success_record filename content (substring content 0 60)
    (success_record filename content).
Proof. split; [apply success_record_dom|done]. Qed.

Lemma error_record_is_error (filename : string) (error : Error) :
  is_error_record filename error (error_record filename error).
Proof. split; [apply error_record_dom|done]. Qed.

Lemma read_outcome_readable (fs : FileSystem) (filename content : string) :
  fs !! filename = Some (Readable content) → read_outcome fs filename = inr content.
Proof. intros H. unfold read_outcome. by rewrite H. Qed.

Lemma read_outcome_missing (fs : FileSystem) (filename : string) :
  fs !! filename = None → read_outcome fs filename = inl (ENOENT filename).
Proof. intros H. unfold read_outcome. by rewrite H. Qed.

(** What [substring(0, n)] computes is the preview of the specification. *)
Lemma substring_first_characters (content : string) (n : nat) :
  substring content 0 n = first_characters n content.
Proof.
  unfold first_characters. case_decide as Hlt.
  - apply substring_0_short. lia.
  - unfold substring.
    replace ((0 `min` String.length content) `min` (n `min` String.length content))
      with 0 by lia.
    by replace ((0 `min` String.length content) `max` (n `min` String.length content) - 0)
      with n by lia.
Qed.

(* ===================================================================== *)
(** ** The sequential multi-file reader *)
(* ===================================================================== *)

(** C1, as amended.  For every list of N filenames that all reference
    readable files, [readMultipleFilesSequentially] fulfils with exactly N
    records, the i-th being a success record for the i-th filename: its
    [length] is the character count of the content, and its [preview] is
    the first 60 characters of the content (the full content if it is
    shorter than 60 characters) followed by the literal ["..."]. *)
Theorem sequential_reader_all_readable (fs : FileSystem) (fileList : list string) :
  Forall (λ filename, ∃ content, fs !! filename = Some (Readable content)) fileList →
  ∃ results out,
    readMultipleFilesSequentially fs fileList = (Normal (Fulfilled results), out)
    ∧ length results = length fileList
    ∧ Forall2 (λ filename r, ∃ content,
                 fs !! filename = Some (Readable content)
                 ∧ is_success_record filename content (first_characters 60 content) r)
        fileList results.
Proof.
  intros Hall.
  destruct (readMultipleFilesSequentially_run fs fileList) as (out & Heq & _).
  eexists _, out. split; [exact Heq|]. split; [by rewrite length_fmap|].
  apply Forall2_fmap_r, Forall_Forall2_diag.
  eapply Forall_impl; [exact Hall|].
  intros filename (content & Hfile). exists content. split; [done|].
  unfold record_of. rewrite (read_outcome_readable _ _ _ Hfile).
  rewrite <- substring_first_characters. apply success_record_is_success.
Qed.

(** C1, as stated, fails: the single file ["file1.txt"] holds the 11
    characters ["hello world"], fewer than 60, so the claimed preview is
    that content; the preview of the record is ["hello world..."]. *)
Lemma sequential_reader_preview_not_bare_content :
  ∃ r out,
    example_fs !! "file1.txt" = Some (Readable "hello world")
    ∧ readMultipleFilesSequentially example_fs ["file1.txt"]
      = (Normal (Fulfilled [r]), out)
    ∧ first_characters 60 "hello world" = "hello world"
    ∧ r !! "preview" = Some (Str "hello world...")
    ∧ r !! "preview" ≠ Some (Str (first_characters 60 "hello world")).
Proof.
  assert (Hfile : example_fs !! "file1.txt" = Some (Readable "hello world"))
    by reflexivity.
  destruct (readMultipleFilesSequentially_run example_fs ["file1.txt"])
    as (out & Heq & _).
  cbn [fmap list_fmap] in Heq. unfold record_of in Heq.
  rewrite (read_outcome_readable _ _ _ Hfile) in Heq.
  exists (success_record "file1.txt" "hello world"), out.
  split; [exact Hfile|]. split; [exact Heq|]. split; [reflexivity|].
  rewrite success_record_preview. split; [reflexivity|].
  intros [=].
Qed.

Lemma sequential_reader_all_readable_witness :
  Forall (λ filename, ∃ content, example_fs !! filename = Some (Readable content))
    ["file1.txt"; "file3.txt"]
  ∧ ∃ results out,
      readMultipleFilesSequentially example_fs ["file1.txt"; "file3.txt"]
      = (Normal (Fulfilled results), out)
      ∧ length results = 2
      ∧ Forall2 (λ filename r, ∃ content,
                   example_fs !! filename = Some (Readable content)
                   ∧ is_success_record filename content (first_characters 60 content) r)
          ["file1.txt"; "file3.txt"] results.
Proof.
  assert (Hall : Forall (λ filename, ∃ content,
                           example_fs !! filename = Some (Readable content))
                   ["file1.txt"; "file3.txt"]).
  { repeat constructor; eexists; reflexivity. }
  split; [exact Hall|].
  exact (sequential_reader_all_readable example_fs ["file1.txt"; "file3.txt"] Hall).
Defined.

(** C2.  When the i-th filename references a missing file, the reader
    still fulfils with one record per entry, every entry has been read,
    the i-th record is an error record carrying the error of that read,
    and each later entry has the record of its own read.  In particular,
    for [valid; missing; valid] it fulfils with exactly three records, in
    input order: success, error, success. *)
Theorem sequential_reader_continues_after_missing (fs : FileSystem) :
  (∀ (fileList : list string) (i : nat) (filename : string),
     fileList !! i = Some filename →
     fs !! filename = None →
     ∃ results out r,
       readMultipleFilesSequentially fs fileList = (Normal (Fulfilled results), out)
       ∧ length results = length fileList
       ∧ reads out = fileList
       ∧ results !! i = Some r
       ∧ is_error_record filename (ENOENT filename) r
       ∧ ∀ j, i < j → results !! j = record_of fs <$> fileList !! j)
  ∧ (∀ (valid1 missing valid2 content1 content2 : string),
       fs !! valid1 = Some (Readable content1) →
       fs !! missing = None →
       fs !! valid2 = Some (Readable content2) →
       ∃ r1 r2 r3 out,
         readMultipleFilesSequentially fs [valid1; missing; valid2]
         = (Normal (Fulfilled [r1; r2; r3]), out)
         ∧ is_success_record valid1 content1 (substring content1 0 60) r1
         ∧ is_error_record missing (ENOENT missing) r2
         ∧ is_success_record valid2 content2 (substring content2 0 60) r3).
Proof.
  split.
  - intros fileList i filename Hi Hmissing.
    destruct (readMultipleFilesSequentially_run fs fileList) as (out & Heq & Hreads & _).
    exists (record_of fs <$> fileList), out, (error_record filename (ENOENT filename)).
    split; [exact Heq|]. split; [by rewrite length_fmap|]. split; [exact Hreads|].
    split; [|split].
    + rewrite list_lookup_fmap, Hi. simpl. unfold record_of.
      by rewrite (read_outcome_missing _ _ Hmissing).
    + apply error_record_is_error.
    + intros j _. apply list_lookup_fmap.
  - intros valid1 missing valid2 content1 content2 H1 H2 H3.
    destruct (readMultipleFilesSequentially_run fs [valid1; missing; valid2])
      as (out & Heq & _).
    cbn [fmap list_fmap] in Heq. unfold record_of in Heq.
    rewrite (read_outcome_readable _ _ _ H1), (read_outcome_missing _ _ H2),
      (read_outcome_readable _ _ _ H3) in Heq.
    eexists _, _, _, out. split; [exact Heq|].
    split; [apply success_record_is_success|].
    split; [apply error_record_is_error|apply success_record_is_success].
Qed.

Lemma sequential_reader_continues_after_missing_witness :
  (["file1.txt"; "file2.txt"; "file3.txt"] !! 1 = Some "file2.txt"
   ∧ example_fs !! "file2.txt" = None
   ∧ ∃ results out r,
       readMultipleFilesSequentially example_fs ["file1.txt"; "file2.txt"; "file3.txt"]
       = (Normal (Fulfilled results), out)
       ∧ length results = 3
       ∧ reads out = ["file1.txt"; "file2.txt"; "file3.txt"]
       ∧ results !! 1 = Some r
       ∧ is_error_record "file2.txt" (ENOENT "file2.txt") r
       ∧ ∀ j, 1 < j →
           results !! j
           = record_of example_fs <$> ["file1.txt"; "file2.txt"; "file3.txt"] !! j)
  ∧ (example_fs !! "file1.txt" = Some (Readable "hello world")
     ∧ example_fs !! "file2.txt" = None
     ∧ ∃ content2 r1 r2 r3 out,
         example_fs !! "file3.txt" = Some (Readable content2)
         ∧ readMultipleFilesSequentially example_fs ["file1.txt"; "file2.txt"; "file3.txt"]
           = (Normal (Fulfilled [r1; r2; r3]), out)
         ∧ is_success_record "file1.txt" "hello world" (substring "hello world" 0 60) r1
         ∧ is_error_record "file2.txt" (ENOENT "file2.txt") r2
         ∧ is_success_record "file3.txt" content2 (substring content2 0 60) r3).
Proof.
  destruct (sequential_reader_continues_after_missing example_fs) as [Hgeneral Hthree].
  split.
  - split; [reflexivity|]. split; [reflexivity|].
    exact (Hgeneral ["file1.txt"; "file2.txt"; "file3.txt"] 1 "file2.txt"
             eq_refl eq_refl).
  - split; [reflexivity|]. split; [reflexivity|].
    eexists.
    destruct (Hthree "file1.txt" "file2.txt" "file3.txt" _ _ eq_refl eq_refl eq_refl)
      as (r1 & r2 & r3 & out & H).
    exists r1, r2, r3, out. split; [reflexivity|exact H].
Defined.

(** C5.  The preview of every success record is [content.substring(0, 60)]
    with the literal ["..."] appended, whether or not anything was cut
    (error records have no preview); and a file whose content is
    ["hello world"] yields the success record with [length] 11 and
    [preview] ["hello world..."]. *)
Theorem sequential_reader_preview_has_ellipsis (fs : FileSystem)
    (fileList : list string) (filename : string) :
  (∃ results out,
     readMultipleFilesSequentially fs fileList = (Normal (Fulfilled results), out)
     ∧ Forall2 (λ filename r,
                  r !! "preview"
                  = match read_outcome fs filename with
                    | inr content => Some (Str (substring content 0 60 +:+ "..."))
                    | inl _ => None
                    end)
         fileList results)
  ∧ (∃ r out,
       readMultipleFilesSequentially (<[filename := Readable "hello world"]> fs) [filename]
       = (Normal (Fulfilled [r]), out)
       ∧ dom r = success_shape
       ∧ r !! "length" = Some (Num 11)
       ∧ r !! "preview" = Some (Str "hello world...")).
Proof.
  split.
  - destruct (readMultipleFilesSequentially_run fs fileList) as (out & Heq & _).
    eexists _, out. split; [exact Heq|].
    apply Forall2_fmap_r, Forall_Forall2_diag, Forall_forall.
    intros f _. unfold compose, record_of.
    destruct (read_outcome fs f); reflexivity.
  - destruct (readMultipleFilesSequentially_run
                (<[filename := Readable "hello world"]> fs) [filename])
      as (out & Heq & _).
    cbn [fmap list_fmap] in Heq. unfold record_of in Heq.
    rewrite (read_outcome_readable _ _ "hello world") in Heq
      by apply lookup_insert_eq.
    eexists _, out. split; [exact Heq|].
    split; [apply success_record_dom|]. split; reflexivity.
Qed.

(** C6.  For every input list, any mix of readable and missing files, the
    reader fulfils with a list as long as the input whose i-th record has
    the i-th input filename as its [filename]; by then every entry has
    been read, in input order, so no failure ended the loop early. *)
Theorem sequential_reader_one_record_per_entry (fs : FileSystem)
    (fileList : list string) :
  ∃ results out,
    readMultipleFilesSequentially fs fileList = (Normal (Fulfilled results), out)
    ∧ length results = length fileList
    ∧ (∀ i, results !! i ≫= lookup "filename" = Str <$> fileList !! i)
    ∧ reads out = fileList.
Proof.
  destruct (readMultipleFilesSequentially_run fs fileList) as (out & Heq & Hreads & _).
  eexists _, out. split; [exact Heq|]. split; [by rewrite length_fmap|].
  split; [|exact Hreads].
  intros i. rewrite list_lookup_fmap.
  destruct (fileList !! i) as [filename|]; [|done].
  simpl. unfold record_of. destruct (read_outcome fs filename); reflexivity.
Qed.

(** C9.  Every record of the returned list has exactly one of two shapes:
    the properties [filename], [content], [length] and [preview] and no
    [error], or the properties [filename] and [error] and none of
    [content], [length] and [preview]. *)
Theorem sequential_reader_record_shapes (fs : FileSystem) (fileList : list string) :
  ∃ results out,
    readMultipleFilesSequentially fs fileList = (Normal (Fulfilled results), out)
    ∧ Forall (λ r : object,
                (dom r = success_shape ∧ r !! "error" = None)
                ∨ (dom r = error_shape
                   ∧ r !! "content" = None ∧ r !! "length" = None
                   ∧ r !! "preview" = None))
        results.
Proof.
  destruct (readMultipleFilesSequentially_run fs fileList) as (out & Heq & _).
  eexists _, out. split; [exact Heq|].
  apply Forall_fmap, Forall_forall. intros filename _. simpl.
  unfold record_of. destruct (read_outcome fs filename) as [error|content].
  - right. split; [apply error_record_dom|done].
  - left. split; [apply success_record_dom|done].
Qed.

(* ===================================================================== *)
(** ** The three readers *)
(* ===================================================================== *)

Lemma path_refused_valid (fs : FileSystem) (filename : string) :
  includes_NUL filename = false → path_refused fs filename = false.
Proof. intros Hvalid. unfold path_refused. by rewrite Hvalid. Qed.

Lemma path_refused_readable (fs : FileSystem) (filename data : string) :
  read_outcome fs filename = inr data → path_refused fs filename = false.
Proof. intros Hout. unfold path_refused. rewrite Hout. apply andb_false_r. Qed.

(** On a path that passes validation the callback reader logs, issues the
    read, and hands the outcome to the callback in one event-loop task; it
    completes normally itself. *)
Lemma readFileWithCallback_accepted (fs : FileSystem) (filename : string)
    (callback : option Error → option string → IO unit) :
  path_refused fs filename = false →
  readFileWithCallback fs filename callback
  = (Normal tt,
     [ConsoleLog [LF +:+ "1. CALLBACK: Reading " +:+ filename +:+ "..."];
      FsRead filename]
     ++ (run_task match read_outcome fs filename with
                  | inl error => callback (Some error) None
                  | inr data => callback None (Some data)
                  end).2).
Proof.
  intros Haccepted. unfold readFileWithCallback, fsCallback_readFile.
  rewrite Haccepted.
  destruct (read_outcome fs filename) as [error|data];
    cbv [bind console_log emit run_task snd].
  - by destruct (callback (Some error) None) as [[[]|e] out].
  - by destruct (callback None (Some data)) as [[[]|e] out].
Qed.

Lemma readFileWithCallback_run (fs : FileSystem) (filename : string)
    (callback : option Error → option string → IO unit) :
  includes_NUL filename = false →
  readFileWithCallback fs filename callback
  = (Normal tt,
     [ConsoleLog [LF +:+ "1. CALLBACK: Reading " +:+ filename +:+ "..."];
      FsRead filename]
     ++ (run_task match read_outcome fs filename with
                  | inl error => callback (Some error) None
                  | inr data => callback None (Some data)
                  end).2).
Proof.
  intros Hvalid. by apply readFileWithCallback_accepted, path_refused_valid.
Qed.

(** On a refused path the callback reader throws after its log line: no
    read is issued and the callback does not run. *)
Lemma readFileWithCallback_refused (fs : FileSystem) (filename : string)
    (callback : option Error → option string → IO unit) :
  path_refused fs filename = true →
  readFileWithCallback fs filename callback
  = (Throw ERR_INVALID_ARG_VALUE,
     [ConsoleLog [LF +:+ "1. CALLBACK: Reading " +:+ filename +:+ "..."]]).
Proof.
  intros Hrefused. unfold readFileWithCallback, fsCallback_readFile.
  by rewrite Hrefused.
Qed.

Lemma readFileWithPromises_fulfilled (fs : FileSystem) (filename data : string) :
  read_outcome fs filename = inr data →
  readFileWithPromises fs filename
  = (Normal (Fulfilled data),
     [ConsoleLog [LF +:+ "2. PROMISE: Reading " +:+ filename +:+ "..."];
      FsRead filename;
      ConsoleLog ["Promise resolved for " +:+ filename]]).
Proof. intros H. unfold readFileWithPromises, fs_readFile. by rewrite H. Qed.

Lemma readFileWithPromises_rejected (fs : FileSystem) (filename : string)
    (error : Error) :
  read_outcome fs filename = inl error →
  readFileWithPromises fs filename
  = (Normal (Rejected error),
     [ConsoleLog [LF +:+ "2. PROMISE: Reading " +:+ filename +:+ "..."];
      FsRead filename;
      ConsoleError ["Promise rejected for " +:+ filename +:+ ":"; message error]]).
Proof. intros H. unfold readFileWithPromises, fs_readFile. by rewrite H. Qed.

Lemma readFileWithAsyncAwait_fulfilled (fs : FileSystem) (filename data : string) :
  read_outcome fs filename = inr data →
  readFileWithAsyncAwait fs filename
  = (Normal (Fulfilled data),
     [ConsoleLog [LF +:+ "3. ASYNC/AWAIT: Reading " +:+ filename +:+ "..."];
      FsRead filename;
      ConsoleLog ["Async/await completed for " +:+ filename]]).
Proof. intros H. unfold readFileWithAsyncAwait, fs_readFile. by rewrite H. Qed.

Lemma readFileWithAsyncAwait_rejected (fs : FileSystem) (filename : string)
    (error : Error) :
  read_outcome fs filename = inl error →
  readFileWithAsyncAwait fs filename
  = (Normal (Rejected error),
     [ConsoleLog [LF +:+ "3. ASYNC/AWAIT: Reading " +:+ filename +:+ "..."];
      FsRead filename;
      ConsoleError ["Async/await error for " +:+ filename +:+ ":"; message error]]).
Proof. intros H. unfold readFileWithAsyncAwait, fs_readFile. by rewrite H. Qed.

(** C3.  For a filename that references a readable file, the three readers
    yield the same content: the callback reader passes it as the second
    argument of the callback (with [null] as the first), the promise reader
    resolves with it, and the async/await reader returns it. *)
Theorem readers_yield_identical_content (fs : FileSystem) (filename content : string) :
  fs !! filename = Some (Readable content) →
  (∀ callback,
     readFileWithCallback fs filename callback
     = (Normal tt,
        [ConsoleLog [LF +:+ "1. CALLBACK: Reading " +:+ filename +:+ "..."];
         FsRead filename]
        ++ (run_task (callback None (Some content))).2))
  ∧ (readFileWithPromises fs filename).1 = Normal (Fulfilled content)
  ∧ (readFileWithAsyncAwait fs filename).1 = Normal (Fulfilled content)
  ∧ (p <- readFileWithAsyncAwait fs filename ;; await p).1 = Normal content.
Proof.
  intros Hfile%read_outcome_readable. split; [|split; [|split]].
  - intros callback.
    rewrite (readFileWithCallback_accepted _ _ _ (path_refused_readable _ _ _ Hfile)).
    by rewrite Hfile.
  - by rewrite (readFileWithPromises_fulfilled _ _ _ Hfile).
  - by rewrite (readFileWithAsyncAwait_fulfilled _ _ _ Hfile).
  - by rewrite (readFileWithAsyncAwait_fulfilled _ _ _ Hfile).
Qed.

Lemma readers_yield_identical_content_witness :
  example_fs !! "file1.txt" = Some (Readable "hello world")
  ∧ (∀ callback,
       readFileWithCallback example_fs "file1.txt" callback
       = (Normal tt,
          [ConsoleLog [LF +:+ "1. CALLBACK: Reading " +:+ "file1.txt" +:+ "..."];
           FsRead "file1.txt"]
          ++ (run_task (callback None (Some "hello world"))).2))
  ∧ (readFileWithPromises example_fs "file1.txt").1 = Normal (Fulfilled "hello world")
  ∧ (readFileWithAsyncAwait example_fs "file1.txt").1 = Normal (Fulfilled "hello world")
  ∧ (p <- readFileWithAsyncAwait example_fs "file1.txt" ;; await p).1
    = Normal "hello world".
Proof.
  split; [reflexivity|].
  apply (readers_yield_identical_content example_fs "file1.txt" "hello world").
  reflexivity.
Defined.

(** C4, as amended.  For a well-formed filename, one with no NUL character
    in it, that references a nonexistent file, each reader surfaces the
    I/O error through its own channel only.  The callback reader completes
    normally whatever the callback does, having run the callback with
    [(error, null)], and adds no event of its own after the read.  The
    promise reader returns a promise rejected with the error.  The
    async/await reader logs and returns a promise rejected with the error,
    which [await] raises in its caller.  None of them leaves an error
    unhandled with the runtime. *)
Theorem readers_surface_missing_file (fs : FileSystem) (filename : string) :
  includes_NUL filename = false →
  fs !! filename = None →
  (∀ callback,
     readFileWithCallback fs filename callback
     = (Normal tt,
        [ConsoleLog [LF +:+ "1. CALLBACK: Reading " +:+ filename +:+ "..."];
         FsRead filename]
        ++ (run_task (callback (Some (ENOENT filename)) None)).2))
  ∧ (∀ callback out,
       callback (Some (ENOENT filename)) None = (Normal tt, out) →
       crashes (readFileWithCallback fs filename callback).2 = crashes out)
  ∧ readFileWithPromises fs filename
    = (Normal (Rejected (ENOENT filename)),
       [ConsoleLog [LF +:+ "2. PROMISE: Reading " +:+ filename +:+ "..."];
        FsRead filename;
        ConsoleError ["Promise rejected for " +:+ filename +:+ ":";
                      message (ENOENT filename)]])
  ∧ readFileWithAsyncAwait fs filename
    = (Normal (Rejected (ENOENT filename)),
       [ConsoleLog [LF +:+ "3. ASYNC/AWAIT: Reading " +:+ filename +:+ "..."];
        FsRead filename;
        ConsoleError ["Async/await error for " +:+ filename +:+ ":";
                      message (ENOENT filename)]])
  ∧ (p <- readFileWithAsyncAwait fs filename ;; await p).1
    = @Throw string (ENOENT filename)
  ∧ crashes (readFileWithPromises fs filename).2 = []
  ∧ crashes (readFileWithAsyncAwait fs filename).2 = [].
Proof.
  intros Hvalid Hfile%read_outcome_missing.
  rewrite (readFileWithPromises_rejected _ _ _ Hfile),
    (readFileWithAsyncAwait_rejected _ _ _ Hfile).
  split; [|split; [|done]].
  - intros callback. by rewrite (readFileWithCallback_run _ _ _ Hvalid), Hfile.
  - intros callback out Hcallback.
    by rewrite (readFileWithCallback_run _ _ _ Hvalid), Hfile, Hcallback.
Qed.

(** C4, as stated, fails: the name ['a\0b'] references no file of the
    example directory, yet the callback reader does not surface an error
    through its callback.  It throws, synchronously, the error of the path
    validation, right after its log line; the callback, which would have
    reported its invocation, is not run. *)
Lemma callback_reader_throws_on_NUL_path :
  example_fs !! NUL_path = None
  ∧ includes_NUL NUL_path = true
  ∧ readFileWithCallback example_fs NUL_path spy
    = (Throw ERR_INVALID_ARG_VALUE,
       [ConsoleLog [LF +:+ "1. CALLBACK: Reading " +:+ NUL_path +:+ "..."]]).
Proof.
  split; [reflexivity|]. split; [reflexivity|].
  by apply readFileWithCallback_refused.
Qed.

Lemma readers_surface_missing_file_witness :
  includes_NUL "file2.txt" = false
  ∧ example_fs !! "file2.txt" = None
  ∧ (readFileWithCallback example_fs "file2.txt" spy).1 = Normal tt
  ∧ (readFileWithPromises example_fs "file2.txt").1
    = Normal (Rejected (ENOENT "file2.txt"))
  ∧ (readFileWithAsyncAwait example_fs "file2.txt").1
    = Normal (Rejected (ENOENT "file2.txt")).
Proof.
  split; [reflexivity|]. split; [reflexivity|].
  destruct (readers_surface_missing_file example_fs "file2.txt" eq_refl eq_refl)
    as (Hcallback & _ & Hpromise & Hasync & _).
  rewrite Hcallback, Hpromise, Hasync. done.
Defined.

(** C8, as amended.  For every invocation of [readFileWithCallback] with
    a well-formed filename, one with no NUL character in it, and whatever
    the outcome of the read, the supplied callback is invoked exactly
    once: the events are the log line and the read, followed by those of a
    single event-loop task that calls [callback(error, null)] on failure
    and [callback(null, content)] on success.  With a callback that
    reports each invocation, exactly one report follows, carrying those
    arguments. *)
Theorem readFileWithCallback_invokes_callback_once (fs : FileSystem)
    (filename : string) (callback : option Error → option string → IO unit) :
  includes_NUL filename = false →
  readFileWithCallback fs filename callback
  = (Normal tt,
     [ConsoleLog [LF +:+ "1. CALLBACK: Reading " +:+ filename +:+ "..."];
      FsRead filename]
     ++ (run_task match read_outcome fs filename with
                  | inl error => callback (Some error) None
                  | inr content => callback None (Some content)
                  end).2)
  ∧ readFileWithCallback fs filename spy
    = (Normal tt,
       [ConsoleLog [LF +:+ "1. CALLBACK: Reading " +:+ filename +:+ "..."];
        FsRead filename;
        ConsoleLog match read_outcome fs filename with
                   | inl error => ["spy"; message error; "null"]
                   | inr content => ["spy"; "null"; content]
                   end]).
Proof.
  intros Hvalid. split; [by apply readFileWithCallback_run|].
  rewrite (readFileWithCallback_run _ _ _ Hvalid).
  by destruct (read_outcome fs filename).
Qed.

(** C8, as stated, fails: invoked with the name ['a\0b'] in the empty
    directory, [readFileWithCallback] invokes the reporting callback zero
    times.  The call throws during the path validation; its only event is
    the log line, with no read and no report of the callback. *)
Lemma callback_invoked_zero_times_on_NUL_path :
  ∃ out,
    readFileWithCallback ∅ NUL_path spy = (Throw ERR_INVALID_ARG_VALUE, out)
    ∧ out = [ConsoleLog [LF +:+ "1. CALLBACK: Reading " +:+ NUL_path +:+ "..."]]
    ∧ reads out = []
    ∧ Forall (λ ev, ∀ err data, ev ≠ ConsoleLog ["spy"; err; data]) out.
Proof.
  eexists. split; [by apply readFileWithCallback_refused|].
  split; [reflexivity|]. split; [reflexivity|].
  repeat constructor. intros err data [=].
Qed.

Lemma readFileWithCallback_invokes_callback_once_witness :
  includes_NUL "file1.txt" = false
  ∧ readFileWithCallback example_fs "file1.txt" spy
    = (Normal tt,
       [ConsoleLog [LF +:+ "1. CALLBACK: Reading " +:+ "file1.txt" +:+ "..."];
        FsRead "file1.txt";
        ConsoleLog ["spy"; "null"; "hello world"]]).
Proof.
  split; [reflexivity|].
  exact (proj2 (readFileWithCallback_invokes_callback_once example_fs "file1.txt"
                  spy eq_refl)).
Defined.

(* ===================================================================== *)
(** ** The demonstrators *)
(* ===================================================================== *)

(** C7.  In the chain of the promise demonstrator, if the read of a file
    fails, the files before it having been read, then no file after it is
    read, the last thing the demonstrator does is log the error in the
    final catch handler, and it completes normally with no rejection left
    unhandled.  Likewise in the callback demonstrator: when the read of
    [file1.txt] fails, [file2.txt] is never read. *)
Theorem demonstrators_abandon_chain_on_failure (fs : FileSystem) :
  (∀ (before after : list string) (failing : string) (error : Error),
     ["file1.txt"; "file2.txt"; "file3.txt"] = before ++ failing :: after →
     Forall (λ filename, ∃ data, read_outcome fs filename = inr data) before →
     read_outcome fs failing = inl error →
     ∃ out,
       demonstratePromises fs = (Normal tt, out)
       ∧ reads out = before ++ [failing]
       ∧ last out = Some (ConsoleError ["Promise chain error:"; message error])
       ∧ crashes out = [])
  ∧ (∀ error : Error,
       read_outcome fs "file1.txt" = inl error →
       ∃ out,
         demonstrateCallbacks fs = (Normal tt, out)
         ∧ reads out = ["file1.txt"]
         ∧ last out = Some (ConsoleError ["Callback Error:"; message error])
         ∧ crashes out = []).
Proof.
  split.
  - intros before after failing error Hchain Hbefore Hfail.
    unfold demonstratePromises.
    destruct before as [|b1 [|b2 [|b3 before]]]; simplify_eq/=.
    + rewrite (readFileWithPromises_rejected _ _ _ Hfail).
      eexists. split; [reflexivity|done].
    + apply Forall_cons in Hbefore as [[data1 H1] _].
      rewrite (readFileWithPromises_fulfilled _ _ _ H1). run_chain.
      rewrite (readFileWithPromises_rejected _ _ _ Hfail).
      eexists. split; [reflexivity|done].
    + apply Forall_cons in Hbefore as [[data1 H1] Hbefore].
      apply Forall_cons in Hbefore as [[data2 H2] _].
      rewrite (readFileWithPromises_fulfilled _ _ _ H1). run_chain.
      rewrite (readFileWithPromises_fulfilled _ _ _ H2).
      rewrite (readFileWithPromises_rejected _ _ _ Hfail).
      eexists. split; [reflexivity|done].
    + by destruct before.
  - intros error Hfail. unfold demonstrateCallbacks.
    rewrite (readFileWithCallback_run fs "file1.txt" _ eq_refl), Hfail.
    eexists. split; [reflexivity|done].
Qed.

Lemma demonstrators_abandon_chain_on_failure_witness :
  (["file1.txt"; "file2.txt"; "file3.txt"] = ["file1.txt"] ++ "file2.txt" :: ["file3.txt"]
   ∧ Forall (λ filename, ∃ data, read_outcome example_fs filename = inr data)
       ["file1.txt"]
   ∧ read_outcome example_fs "file2.txt" = inl (ENOENT "file2.txt")
   ∧ ∃ out,
       demonstratePromises example_fs = (Normal tt, out)
       ∧ reads out = ["file1.txt"] ++ ["file2.txt"]
       ∧ last out = Some (ConsoleError ["Promise chain error:";
                                        message (ENOENT "file2.txt")])
       ∧ crashes out = [])
  ∧ (read_outcome (∅ : FileSystem) "file1.txt" = inl (ENOENT "file1.txt")
     ∧ ∃ out,
         demonstrateCallbacks ∅ = (Normal tt, out)
         ∧ reads out = ["file1.txt"]
         ∧ last out = Some (ConsoleError ["Callback Error:";
                                          message (ENOENT "file1.txt")])
         ∧ crashes out = []).
Proof.
  assert (Hbefore : Forall (λ filename, ∃ data,
                              read_outcome example_fs filename = inr data)
                      ["file1.txt"]).
  { repeat constructor. eexists. reflexivity. }
  split.
  - split; [reflexivity|]. split; [exact Hbefore|]. split; [reflexivity|].
    exact (proj1 (demonstrators_abandon_chain_on_failure example_fs)
             ["file1.txt"] ["file3.txt"] "file2.txt" (ENOENT "file2.txt")
             eq_refl Hbefore eq_refl).
  - split; [reflexivity|].
    exact (proj2 (demonstrators_abandon_chain_on_failure ∅)
             (ENOENT "file1.txt") eq_refl).
Defined.

(** C10.  The promise returned by [demonstrateAsyncAwait] always fulfils,
    whichever of the three reads fail: the reads stop at the first failure,
    whose error is caught and logged by the [try]/[catch] of the
    demonstrator as the last thing it does, and nothing is left unhandled
    with the runtime. *)
Theorem demonstrateAsyncAwait_always_fulfils (fs : FileSystem) :
  ∃ out,
    demonstrateAsyncAwait fs = (Normal (Fulfilled tt), out)
    ∧ reads out = until_failure fs ["file1.txt"; "file2.txt"; "file3.txt"]
    ∧ last out
      = Some match first_failure fs ["file1.txt"; "file2.txt"; "file3.txt"] with
             | Some error => ConsoleError ["Async/await error:"; message error]
             | None => ConsoleLog ["All async/await operations completed!"]
             end
    ∧ crashes out = [].
Proof.
  unfold demonstrateAsyncAwait. cbn [until_failure first_failure].
  destruct (read_outcome fs "file1.txt") as [e1|data1] eqn:H1.
  { rewrite (readFileWithAsyncAwait_rejected _ _ _ H1).
    eexists. split; [reflexivity|done]. }
  rewrite (readFileWithAsyncAwait_fulfilled _ _ _ H1). run_chain.
  destruct (read_outcome fs "file2.txt") as [e2|data2] eqn:H2.
  { rewrite (readFileWithAsyncAwait_rejected _ _ _ H2).
    eexists. split; [reflexivity|done]. }
  rewrite (readFileWithAsyncAwait_fulfilled _ _ _ H2).
  destruct (read_outcome fs "file3.txt") as [e3|data3] eqn:H3.
  { rewrite (readFileWithAsyncAwait_rejected _ _ _ H3).
    eexists. split; [reflexivity|done]. }
  rewrite (readFileWithAsyncAwait_fulfilled _ _ _ H3).
  eexists. split; [reflexivity|done].
Qed.

(* ===================================================================== *)
(** ** Further properties of the readers *)
(* ===================================================================== *)

Lemma console_errors_app (t1 t2 : trace) :
  console_errors (t1 ++ t2) = console_errors t1 ++ console_errors t2.
Proof.
  induction t1 as [|ev t1 IH]; [done|].
  destruct ev; simpl; by rewrite ?IH.
Qed.

Lemma run_task_reads (task : IO unit) : reads (run_task task).2 = reads task.2.
Proof.
  destruct task as [[[]|e] out]; [done|].
  simpl. rewrite reads_app. simpl. by rewrite app_nil_r.
Qed.

(** X1.  For a well-formed filename, one with no NUL character in it, and
    whatever the outcome of the read (content, missing file, or any other
    I/O error), the three readers agree on it: the promise reader and the
    async/await reader return promises settled the same way, and the
    callback reader calls [callback(null, data)] when they are fulfilled
    with [data] and [callback(error, null)] when they are rejected with
    [error]. *)
Theorem readers_agree_on_every_outcome (fs : FileSystem) (filename : string) :
  includes_NUL filename = false →
  ∃ p : Promise string,
    p = match read_outcome fs filename with
        | inr data => Fulfilled data
        | inl error => Rejected error
        end
    ∧ (readFileWithPromises fs filename).1 = Normal p
    ∧ (readFileWithAsyncAwait fs filename).1 = Normal p
    ∧ ∀ callback,
        readFileWithCallback fs filename callback
        = (Normal tt,
           [ConsoleLog [LF +:+ "1. CALLBACK: Reading " +:+ filename +:+ "..."];
            FsRead filename]
           ++ (run_task match p with
                        | Fulfilled data => callback None (Some data)
                        | Rejected error => callback (Some error) None
                        end).2).
Proof.
  intros Hvalid. eexists. split; [reflexivity|].
  destruct (read_outcome fs filename) as [error|data] eqn:Hout.
  - rewrite (readFileWithPromises_rejected _ _ _ Hout),
      (readFileWithAsyncAwait_rejected _ _ _ Hout).
    split; [done|]. split; [done|].
    intros callback. by rewrite (readFileWithCallback_run _ _ _ Hvalid), Hout.
  - rewrite (readFileWithPromises_fulfilled _ _ _ Hout),
      (readFileWithAsyncAwait_fulfilled _ _ _ Hout).
    split; [done|]. split; [done|].
    intros callback. by rewrite (readFileWithCallback_run _ _ _ Hvalid), Hout.
Qed.

Lemma readers_agree_on_every_outcome_witness :
  includes_NUL "secret.txt" = false
  ∧ ∃ p : Promise string,
      p = match read_outcome locked_fs "secret.txt" with
          | inr data => Fulfilled data
          | inl error => Rejected error
          end
      ∧ (readFileWithPromises locked_fs "secret.txt").1 = Normal p
      ∧ (readFileWithAsyncAwait locked_fs "secret.txt").1 = Normal p
      ∧ ∀ callback,
          readFileWithCallback locked_fs "secret.txt" callback
          = (Normal tt,
             [ConsoleLog [LF +:+ "1. CALLBACK: Reading " +:+ "secret.txt" +:+ "..."];
              FsRead "secret.txt"]
             ++ (run_task match p with
                          | Fulfilled data => callback None (Some data)
                          | Rejected error => callback (Some error) None
                          end).2).
Proof.
  split; [reflexivity|].
  exact (readers_agree_on_every_outcome locked_fs "secret.txt" eq_refl).
Defined.

(** X2.  Given a well-formed filename, one with no NUL character in it,
    each reader issues exactly one read, of that file, whether the read
    succeeds or fails: there is no retry.  The reads of the callback
    reader are that one read followed by those of the callback. *)
Theorem readers_read_once (fs : FileSystem) (filename : string) :
  includes_NUL filename = false →
  reads (readFileWithPromises fs filename).2 = [filename]
  ∧ reads (readFileWithAsyncAwait fs filename).2 = [filename]
  ∧ ∀ callback,
      reads (readFileWithCallback fs filename callback).2
      = filename :: reads match read_outcome fs filename with
                          | inl error => callback (Some error) None
                          | inr data => callback None (Some data)
                          end.2.
Proof.
  intros Hvalid.
  assert (Hcallback : ∀ callback,
    reads (readFileWithCallback fs filename callback).2
    = filename :: reads match read_outcome fs filename with
                        | inl error => callback (Some error) None
                        | inr data => callback None (Some data)
                        end.2).
  { intros callback. rewrite (readFileWithCallback_run _ _ _ Hvalid).
    cbn [snd]. rewrite reads_app, run_task_reads. done. }
  destruct (read_outcome fs filename) as [error|data] eqn:Hout.
  - by rewrite (readFileWithPromises_rejected _ _ _ Hout),
      (readFileWithAsyncAwait_rejected _ _ _ Hout).
  - by rewrite (readFileWithPromises_fulfilled _ _ _ Hout),
      (readFileWithAsyncAwait_fulfilled _ _ _ Hout).
Qed.

Lemma readers_read_once_witness :
  includes_NUL "file2.txt" = false
  ∧ reads (readFileWithPromises example_fs "file2.txt").2 = ["file2.txt"]
  ∧ reads (readFileWithAsyncAwait example_fs "file2.txt").2 = ["file2.txt"]
  ∧ ∀ callback,
      reads (readFileWithCallback example_fs "file2.txt" callback).2
      = "file2.txt" :: reads match read_outcome example_fs "file2.txt" with
                             | inl error => callback (Some error) None
                             | inr data => callback None (Some data)
                             end.2.
Proof.
  split; [reflexivity|].
  exact (readers_read_once example_fs "file2.txt" eq_refl).
Defined.

(** X3.  [readFileWithCallback] does not guard the callback: given a
    well-formed filename, one with no NUL character in it, when the
    callback throws, the reader has still completed normally, and the
    exception ends up uncaught with the runtime, after the events of the
    callback. *)
Theorem readFileWithCallback_callback_throws (fs : FileSystem) (filename : string)
    (callback : option Error → option string → IO unit) (e : Error) (out : trace) :
  includes_NUL filename = false →
  match read_outcome fs filename with
  | inl error => callback (Some error) None
  | inr data => callback None (Some data)
  end = (Throw e, out) →
  readFileWithCallback fs filename callback
  = (Normal tt,
     [ConsoleLog [LF +:+ "1. CALLBACK: Reading " +:+ filename +:+ "..."];
      FsRead filename]
     ++ out ++ [UncaughtException e]).
Proof.
  intros Hvalid Hthrow.
  by rewrite (readFileWithCallback_run _ _ _ Hvalid), Hthrow.
Qed.

Lemma readFileWithCallback_callback_throws_witness :
  includes_NUL "file1.txt" = false
  ∧ match read_outcome example_fs "file1.txt" with
    | inl error => throwing_callback (Some error) None
    | inr data => throwing_callback None (Some data)
    end = (Throw (TypeError_null "length"), [])
  ∧ readFileWithCallback example_fs "file1.txt" throwing_callback
    = (Normal tt,
       [ConsoleLog [LF +:+ "1. CALLBACK: Reading " +:+ "file1.txt" +:+ "..."];
        FsRead "file1.txt"]
       ++ [] ++ [UncaughtException (TypeError_null "length")]).
Proof.
  split; [reflexivity|]. split; [reflexivity|].
  apply (readFileWithCallback_callback_throws example_fs "file1.txt"
           throwing_callback (TypeError_null "length") []);
    reflexivity.
Defined.

(* ===================================================================== *)
(** ** Further properties of the sequential reader *)
(* ===================================================================== *)

(** The [console.error] line of an entry that cannot be read. *)
Lemma for_loop_console_errors (fs : FileSystem) (fileList rest : list string)
    (i : nat) (results : list object) :
  console_errors (for_loop fs fileList i rest results).2
  = omap (λ filename,
            match read_outcome fs filename with
            | inl error => Some ["Failed to read " +:+ filename +:+ ":"; message error]
            | inr _ => None
            end) rest.
Proof.
  revert i results. induction rest as [|filename rest IH]; intros i results; [done|].
  cbn [for_loop omap list_omap]. unfold fs_readFile.
  destruct (read_outcome fs filename) as [error|content].
  - specialize (IH (i + 1) (results ++ [error_record filename error])).
    cbv [bind console_log console_error emit try_catch await ret throw].
    destruct (for_loop _ _ _ _ _) as [r out]. cbn [snd] in *.
    rewrite !console_errors_app, IH. done.
  - specialize (IH (i + 1) (results ++ [success_record filename content])).
    cbv [bind console_log console_error emit try_catch await ret throw].
    destruct (for_loop _ _ _ _ _) as [r out]. cbn [snd] in *.
    rewrite !console_errors_app, IH. done.
Qed.

(** The loop looks at nothing but the outcome of the reads it makes. *)
Lemma for_loop_ext (fs1 fs2 : FileSystem) (fileList rest : list string)
    (i : nat) (results : list object) :
  Forall (λ filename, fs1 !! filename = fs2 !! filename) rest →
  for_loop fs1 fileList i rest results = for_loop fs2 fileList i rest results.
Proof.
  revert i results. induction rest as [|filename rest IH]; intros i results Hsame;
    [done|].
  apply Forall_cons in Hsame as [Hfile Hsame].
  cbn [for_loop]. unfold fs_readFile, read_outcome. rewrite Hfile.
  destruct (fs2 !! filename) as [[content|err]|];
    cbv [bind console_log console_error emit try_catch await ret throw];
    by rewrite IH.
Qed.

(** Given the empty list, the sequential reader fulfils with the empty
    list: it reads nothing and logs only its three header lines, the last
    announcing 0 files. *)
Example sequential_reader_empty_list (fs : FileSystem) :
  readMultipleFilesSequentially fs []
  = (Normal (Fulfilled []),
     [ConsoleLog [LF +:+ "DEMONSTRATING SEQUENTIAL FILE READING"];
      ConsoleLog [repeat "-" 50];
      ConsoleLog ["Reading 0 files sequentially..."]]).
Proof. reflexivity. Qed.

(** X5.  The records of a concatenated list are the records of its parts,
    concatenated: the record of an entry depends neither on its position
    nor on the entries around it. *)
Theorem sequential_reader_app (fs : FileSystem) (fileList1 fileList2 : list string) :
  ∃ results1 results2 out1 out2 out,
    readMultipleFilesSequentially fs fileList1 = (Normal (Fulfilled results1), out1)
    ∧ readMultipleFilesSequentially fs fileList2 = (Normal (Fulfilled results2), out2)
    ∧ readMultipleFilesSequentially fs (fileList1 ++ fileList2)
      = (Normal (Fulfilled (results1 ++ results2)), out)
    ∧ reads out = reads out1 ++ reads out2.
Proof.
  destruct (readMultipleFilesSequentially_run fs fileList1) as (out1 & H1 & Hr1 & _).
  destruct (readMultipleFilesSequentially_run fs fileList2) as (out2 & H2 & Hr2 & _).
  destruct (readMultipleFilesSequentially_run fs (fileList1 ++ fileList2))
    as (out & H & Hr & _).
  eexists _, _, out1, out2, out. split; [exact H1|]. split; [exact H2|].
  split; [by rewrite H, fmap_app|]. by rewrite Hr, Hr1, Hr2.
Qed.

(** X6.  The preview of a success record is never longer than 63
    characters: it has the length of the content capped at 60, plus the 3
    characters of the ellipsis. *)
Theorem sequential_reader_preview_length (fs : FileSystem) (fileList : list string) :
  ∃ results out,
    readMultipleFilesSequentially fs fileList = (Normal (Fulfilled results), out)
    ∧ Forall2 (λ filename r,
                 match read_outcome fs filename with
                 | inr content =>
                     ∃ preview,
                       r !! "preview" = Some (Str preview)
                       ∧ String.length preview = (60 `min` String.length content) + 3
                       ∧ String.length preview ≤ 63
                 | inl _ => r !! "preview" = None
                 end)
        fileList results.
Proof.
  destruct (readMultipleFilesSequentially_run fs fileList) as (out & Heq & _).
  eexists _, out. split; [exact Heq|].
  apply Forall2_fmap_r, Forall_Forall2_diag, Forall_forall.
  intros filename _. unfold compose, record_of.
  destruct (read_outcome fs filename) as [error|content]; [reflexivity|].
  eexists. split; [apply success_record_preview|].
  destruct (substring_0_prefix content 60) as (rest & _ & Hlen).
  rewrite String_length_app, Hlen.
  change (String.length "...") with 3. lia.
Qed.

(** X7.  The sequential reader calls [console.error] once for each entry
    that cannot be read, in input order, with the filename and the message
    of the error, and never otherwise; nothing is left unhandled with the
    runtime. *)
Theorem sequential_reader_console_errors (fs : FileSystem) (fileList : list string) :
  console_errors (readMultipleFilesSequentially fs fileList).2
  = omap (λ filename,
            match read_outcome fs filename with
            | inl error => Some ["Failed to read " +:+ filename +:+ ":"; message error]
            | inr _ => None
            end) fileList
  ∧ crashes (readMultipleFilesSequentially fs fileList).2 = [].
Proof.
  split.
  - unfold readMultipleFilesSequentially.
    pose proof (for_loop_console_errors fs fileList fileList 0 []) as Hloop.
    cbv [async settle bind console_log emit].
    destruct (for_loop _ _ _ _ _) as [[r|e] out]; cbn [snd] in *;
      by rewrite !console_errors_app, Hloop.
  - destruct (readMultipleFilesSequentially_run fs fileList) as (out & Heq & _ & Hc).
    by rewrite Heq.
Qed.

(** X8.  Any I/O error is recorded, not only a missing file: when the read
    of the i-th entry fails with [error], the i-th record is an error
    record with that entry's filename and the message of [error]. *)
Theorem sequential_reader_records_any_error (fs : FileSystem)
    (fileList : list string) (i : nat) (filename : string) (error : Error) :
  fileList !! i = Some filename →
  read_outcome fs filename = inl error →
  ∃ results out r,
    readMultipleFilesSequentially fs fileList = (Normal (Fulfilled results), out)
    ∧ results !! i = Some r
    ∧ is_error_record filename error r.
Proof.
  intros Hi Hfail.
  destruct (readMultipleFilesSequentially_run fs fileList) as (out & Heq & _).
  eexists _, out, _. split; [exact Heq|]. split.
  - rewrite list_lookup_fmap, Hi. simpl. unfold record_of. by rewrite Hfail.
  - apply error_record_is_error.
Qed.

Lemma sequential_reader_records_any_error_witness :
  ["file1.txt"; "secret.txt"] !! 1 = Some "secret.txt"
  ∧ read_outcome locked_fs "secret.txt"
    = inl {| name := "Error"; code := Some "EACCES";
             message := "EACCES: permission denied, open 'secret.txt'" |}
  ∧ ∃ results out r,
      readMultipleFilesSequentially locked_fs ["file1.txt"; "secret.txt"]
      = (Normal (Fulfilled results), out)
      ∧ results !! 1 = Some r
      ∧ is_error_record "secret.txt"
          {| name := "Error"; code := Some "EACCES";
             message := "EACCES: permission denied, open 'secret.txt'" |} r.
Proof.
  split; [reflexivity|]. split; [reflexivity|].
  exact (sequential_reader_records_any_error locked_fs ["file1.txt"; "secret.txt"] 1
           "secret.txt" _ eq_refl eq_refl).
Defined.

(** X9.  The sequential reader depends on the listed files only: on two
    working directories that agree on every listed filename it gives the
    same records and the same console output, whatever else they hold. *)
Theorem sequential_reader_listed_files_only (fs1 fs2 : FileSystem)
    (fileList : list string) :
  Forall (λ filename, fs1 !! filename = fs2 !! filename) fileList →
  readMultipleFilesSequentially fs1 fileList = readMultipleFilesSequentially fs2 fileList.
Proof.
  intros Hsame. unfold readMultipleFilesSequentially.
  by rewrite (for_loop_ext fs1 fs2 fileList fileList 0 [] Hsame).
Qed.

Lemma sequential_reader_listed_files_only_witness :
  Forall (λ filename,
            example_fs !! filename
            = (<["notes.txt" := Readable "unlisted"]> example_fs) !! filename)
    ["file1.txt"; "file2.txt"; "file3.txt"]
  ∧ readMultipleFilesSequentially example_fs ["file1.txt"; "file2.txt"; "file3.txt"]
    = readMultipleFilesSequentially (<["notes.txt" := Readable "unlisted"]> example_fs)
        ["file1.txt"; "file2.txt"; "file3.txt"].
Proof.
  assert (Hsame : Forall (λ filename,
            example_fs !! filename
            = (<["notes.txt" := Readable "unlisted"]> example_fs) !! filename)
    ["file1.txt"; "file2.txt"; "file3.txt"]).
  { repeat constructor. }
  split; [exact Hsame|].
  exact (sequential_reader_listed_files_only example_fs _ _ Hsame).
Defined.

(** X17.  The sequential reader and the single-file readers agree on
    every entry: where [readFileWithAsyncAwait] fulfils with [data], the
    record of the entry has [data] as its [content] and no [error]; where
    it rejects with [error], the record has the message of [error] as its
    [error] and no [content]. *)
Theorem sequential_reader_agrees_with_readers (fs : FileSystem)
    (fileList : list string) :
  ∃ results out,
    readMultipleFilesSequentially fs fileList = (Normal (Fulfilled results), out)
    ∧ Forall2 (λ filename r,
                 match (readFileWithAsyncAwait fs filename).1 with
                 | Normal (Fulfilled data) =>
                     r !! "content" = Some (Str data) ∧ r !! "error" = None
                 | Normal (Rejected error) =>
                     r !! "error" = Some (Str (message error))
                     ∧ r !! "content" = None
                 | Throw _ => False
                 end)
        fileList results.
Proof.
  destruct (readMultipleFilesSequentially_run fs fileList) as (out & Heq & _).
  eexists _, out. split; [exact Heq|].
  apply Forall2_fmap_r, Forall_Forall2_diag, Forall_forall.
  intros filename _. unfold compose, record_of.
  destruct (read_outcome fs filename) as [error|data] eqn:Hout.
  - by rewrite (readFileWithAsyncAwait_rejected _ _ _ Hout).
  - by rewrite (readFileWithAsyncAwait_fulfilled _ _ _ Hout).
Qed.

(** X4.  Every record of the result is consistent in itself, whatever the
    working directory: a record with a [content] has the length of that
    content as its [length], and a [preview] made of a prefix of the
    content followed by the ellipsis; a record without [content] has
    neither [length] nor [preview]. *)
Theorem sequential_reader_records_consistent (fs : FileSystem)
    (fileList : list string) :
  ∃ results out,
    readMultipleFilesSequentially fs fileList = (Normal (Fulfilled results), out)
    ∧ Forall (λ r : object,
                match r !! "content" with
                | Some (Str content) =>
                    r !! "length" = Some (Num (String.length content))
                    ∧ ∃ lead rest,
                        r !! "preview" = Some (Str (lead +:+ "..."))
                        ∧ content = lead +:+ rest
                | Some (Num _) => False
                | None => r !! "length" = None ∧ r !! "preview" = None
                end)
        results.
Proof.
  destruct (readMultipleFilesSequentially_run fs fileList) as (out & Heq & _).
  eexists _, out. split; [exact Heq|].
  apply Forall_fmap, Forall_forall. intros filename _. simpl.
  unfold record_of. destruct (read_outcome fs filename) as [error|content].
  - done.
  - change (success_record filename content !! "content")
      with (Some (Str content)).
    split; [done|].
    destruct (substring_0_prefix content 60) as (rest & Hprefix & _).
    by exists (substring content 0 60), rest.
Qed.

(* ===================================================================== *)
(** ** Further properties of the demonstrators *)
(* ===================================================================== *)

(** Splits on the outcome of the three reads of a demonstrator whose body
    has been unfolded down to [read_outcome]. *)
Local Ltac split_on_reads fs :=
  destruct (read_outcome fs "file1.txt") as [?error|?data];
    [|destruct (read_outcome fs "file2.txt") as [?error|?data];
      [|destruct (read_outcome fs "file3.txt") as [?error|?data]]].

(** X10.  [demonstratePromises] completes normally on every working
    directory and leaves no rejection unhandled.  It reads [file1.txt],
    [file2.txt] and [file3.txt] in that order up to the first read that
    fails, and ends by logging the error of that read in the final catch
    handler, or by the completion message when all three reads succeed. *)
Theorem demonstratePromises_always_completes (fs : FileSystem) :
  ∃ out,
    demonstratePromises fs = (Normal tt, out)
    ∧ reads out = until_failure fs files
    ∧ last out
      = Some match first_failure fs files with
             | Some error => ConsoleError ["Promise chain error:"; message error]
             | None => ConsoleLog ["All promises completed successfully!"]
             end
    ∧ crashes out = [].
Proof.
  unfold demonstratePromises, readFileWithPromises, fs_readFile, files.
  cbn [until_failure first_failure].
  split_on_reads fs; (eexists; split; [reflexivity|done]).
Qed.

(** X11.  [demonstrateCallbacks] completes normally on every working
    directory and no exception of its callbacks reaches the runtime.  It
    reads [file1.txt], then [file2.txt] only if the first read succeeded,
    and never [file3.txt]; a failed read is the last thing it logs. *)
Theorem demonstrateCallbacks_always_completes (fs : FileSystem) :
  ∃ out,
    demonstrateCallbacks fs = (Normal tt, out)
    ∧ reads out = until_failure fs ["file1.txt"; "file2.txt"]
    ∧ ("file3.txt" ∉ reads out)
    ∧ match first_failure fs ["file1.txt"; "file2.txt"] with
      | Some error => last out = Some (ConsoleError ["Callback Error:"; message error])
      | None => console_errors out = []
      end
    ∧ crashes out = [].
Proof.
  unfold demonstrateCallbacks, readFileWithCallback, fsCallback_readFile.
  cbn [until_failure first_failure].
  destruct (read_outcome fs "file1.txt") as [error1|data1];
    [|destruct (read_outcome fs "file2.txt") as [error2|data2]];
    (eexists; split; [reflexivity|]);
    (split; [reflexivity|]); (split; [|done]);
    cbn; rewrite !not_elem_of_cons; repeat split;
    (discriminate || apply not_elem_of_nil).
Qed.

(** X12.  On every working directory the promise demonstrator and the
    async/await demonstrator read the same files in the same order, and
    the callback demonstrator reads a prefix of them. *)
Theorem demonstrators_read_the_same_files (fs : FileSystem) :
  reads (demonstratePromises fs).2 = reads (demonstrateAsyncAwait fs).2
  ∧ (reads (demonstrateCallbacks fs).2) `prefix_of` (reads (demonstratePromises fs).2).
Proof.
  unfold demonstratePromises, readFileWithPromises, demonstrateAsyncAwait,
    readFileWithAsyncAwait, demonstrateCallbacks, readFileWithCallback,
    fsCallback_readFile, fs_readFile.
  split_on_reads fs; (split; [reflexivity|]); cbn.
  - done.
  - done.
  - by exists ["file3.txt"].
  - by exists ["file3.txt"].
Qed.

(** X13.  A failed read is reported twice on [console.error] by the promise
    demonstrator and by the async/await demonstrator, first by the reader
    and then by the demonstrator, and once by the callback demonstrator;
    when no read fails, none of them calls [console.error]. *)
Theorem demonstrators_console_errors (fs : FileSystem) :
  console_errors (demonstratePromises fs).2
  = match failing_entry fs files with
    | Some (filename, error) =>
        [["Promise rejected for " +:+ filename +:+ ":"; message error];
         ["Promise chain error:"; message error]]
    | None => []
    end
  ∧ console_errors (demonstrateAsyncAwait fs).2
    = match failing_entry fs files with
      | Some (filename, error) =>
          [["Async/await error for " +:+ filename +:+ ":"; message error];
           ["Async/await error:"; message error]]
      | None => []
      end
  ∧ console_errors (demonstrateCallbacks fs).2
    = match failing_entry fs ["file1.txt"; "file2.txt"] with
      | Some (filename, error) => [["Callback Error:"; message error]]
      | None => []
      end.
Proof.
  unfold demonstratePromises, readFileWithPromises, demonstrateAsyncAwait,
    readFileWithAsyncAwait, demonstrateCallbacks, readFileWithCallback,
    fsCallback_readFile, fs_readFile, files.
  cbn [failing_entry].
  split_on_reads fs; done.
Qed.

(* ===================================================================== *)
(** ** The summary of [main] *)
(* ===================================================================== *)

Lemma demonstrateAsyncAwait_run (fs : FileSystem) :
  ∃ out,
    demonstrateAsyncAwait fs = (Normal (Fulfilled tt), out)
    ∧ reads out = until_failure fs files
    ∧ crashes out = [].
Proof.
  unfold demonstrateAsyncAwait, readFileWithAsyncAwait, fs_readFile, files.
  cbn [until_failure].
  split_on_reads fs; (eexists; split; [reflexivity|done]).
Qed.

Lemma print_result_line (result : object) (index : nat) :
  ∃ line, print_result result index = (Normal tt, [ConsoleLog [line]]).
Proof. unfold print_result. destruct (truthy _); by eexists. Qed.

Lemma forEach_from_print_result (results : list object) (index : nat) :
  ∃ lines,
    forEach_from index results print_result = (Normal tt, ConsoleLog <$> lines)
    ∧ length lines = length results
    ∧ Forall (λ args, length args = 1) lines.
Proof.
  revert index. induction results as [|result results IH]; intros index.
  - by exists [].
  - destruct (print_result_line result index) as (line & Hline).
    destruct (IH (index + 1)) as (lines & Hrest & Hlen & Hargs).
    exists ([line] :: lines). cbn [forEach_from]. unfold bind.
    rewrite Hline, Hrest. split; [done|]. split; [simpl; by rewrite Hlen|].
    by constructor.
Qed.

Lemma truthy_message (error : Error) :
  message error ≠ "" → truthy (Some (Str (message error))) = true.
Proof.
  intros Hne. simpl. apply negb_true_iff. by apply String.eqb_neq.
Qed.

(** What [print_result] prints for the record of an entry. *)
Lemma print_result_record_of (fs : FileSystem) (filename : string) (index : nat) :
  (∀ error, read_outcome fs filename = inl error → message error ≠ "") →
  print_result (record_of fs filename) index
  = console_log [summary_line fs index filename].
Proof.
  intros Hmessage. unfold print_result, record_of, summary_line.
  destruct (read_outcome fs filename) as [error|content].
  - change (error_record filename error !! "error")
      with (Some (Str (message error))).
    by rewrite truthy_message by auto.
  - reflexivity.
Qed.

Lemma forEach_from_record_of (fs : FileSystem) (fileList : list string) (index : nat) :
  Forall (λ filename,
            ∀ error, read_outcome fs filename = inl error → message error ≠ "")
    fileList →
  forEach_from index (record_of fs <$> fileList) print_result
  = (Normal tt,
     imap (λ i filename, ConsoleLog [summary_line fs (index + i) filename]) fileList).
Proof.
  revert index. induction fileList as [|filename fileList IH]; intros index Hall;
    [done|].
  apply Forall_cons in Hall as [Hfile Hall].
  cbn [fmap list_fmap forEach_from imap]. unfold bind.
  rewrite (print_result_record_of _ _ _ Hfile), (IH (index + 1) Hall).
  cbn. rewrite Nat.add_0_r. do 2 f_equal.
  apply imap_ext. intros i f _. simpl.
  by replace (index + 1 + i) with (index + S i) by lia.
Qed.

(** X15.  Printed from the results of the sequential reader, the summary
    has, for the entry at index i, the line
    [i+1. filename: ERROR - message] when its read failed and the line
    [i+1. filename: N chars - "preview"] when it succeeded, with N the
    length of the content and the preview its first 60 characters
    followed by the ellipsis; this needs the messages of the errors to be
    non-empty, since the loop tells the two kinds of record apart by the
    truthiness of [result.error]. *)
Theorem summary_of_sequential_results (fs : FileSystem) (fileList : list string) :
  Forall (λ filename,
            ∀ error, read_outcome fs filename = inl error → message error ≠ "")
    fileList →
  ∃ results out,
    readMultipleFilesSequentially fs fileList = (Normal (Fulfilled results), out)
    ∧ forEach results print_result
      = (Normal tt,
         imap (λ i filename, ConsoleLog [summary_line fs i filename]) fileList).
Proof.
  intros Hall.
  destruct (readMultipleFilesSequentially_run fs fileList) as (out & Heq & _).
  eexists _, out. split; [exact Heq|].
  unfold forEach. by rewrite (forEach_from_record_of _ _ 0 Hall).
Qed.

Lemma summary_of_sequential_results_witness :
  Forall (λ filename,
            ∀ error, read_outcome example_fs filename = inl error → message error ≠ "")
    ["file1.txt"; "file2.txt"; "file3.txt"]
  ∧ ∃ results out,
      readMultipleFilesSequentially example_fs ["file1.txt"; "file2.txt"; "file3.txt"]
      = (Normal (Fulfilled results), out)
      ∧ forEach results print_result
        = (Normal tt,
           imap (λ i filename, ConsoleLog [summary_line example_fs i filename])
             ["file1.txt"; "file2.txt"; "file3.txt"]).
Proof.
  assert (Hall : Forall (λ filename,
            ∀ error, read_outcome example_fs filename = inl error → message error ≠ "")
    ["file1.txt"; "file2.txt"; "file3.txt"]).
  { repeat constructor; intros error [= <-]; discriminate. }
  split; [exact Hall|].
  exact (summary_of_sequential_results example_fs _ Hall).
Defined.

(** X16.  The callback that [main] schedules last always fulfils and
    leaves nothing unhandled with the runtime.  It runs the async/await
    demonstrator, which stops at the first failing read, then reads all
    three sample files again in the sequential reader; and it ends with
    the banner that all operations completed successfully and the pointer
    to the write-up, whether or not any read failed. *)
Theorem main_timeout_2000_always_fulfils (fs : FileSystem) :
  ∃ out,
    main_timeout_2000 fs = (Normal (Fulfilled tt), out)
    ∧ reads out = until_failure fs files ++ files
    ∧ crashes out = []
    ∧ ∃ earlier,
        out = earlier
              ++ [ConsoleLog [LF +:+ repeat "=" 60];
                  ConsoleLog ["All async operations completed successfully!"];
                  ConsoleLog ["Check the comparison write-up below for differences between approaches."]].
Proof.
  unfold main_timeout_2000.
  destruct (demonstrateAsyncAwait_run fs) as (out1 & H1 & Hr1 & Hc1).
  destruct (readMultipleFilesSequentially_run fs files) as (out2 & H2 & Hr2 & Hc2).
  destruct (forEach_from_print_result (record_of fs <$> files) 0)
    as (lines & H3 & _).
  rewrite H1, H2. cbv [async settle bind await ret console_log emit forEach].
  rewrite H3. eexists. split; [reflexivity|].
  assert (Hr3 : reads (ConsoleLog <$> lines) = [])
    by (clear; induction lines; done).
  assert (Hc3 : crashes (ConsoleLog <$> lines) = [])
    by (clear; induction lines; done).
  split; [|split].
  - rewrite !reads_app, Hr1, Hr2, Hr3. cbn [reads app]. by rewrite ?app_nil_r.
  - rewrite !crashes_app, Hc1, Hc2, Hc3. done.
  - exists (out1 ++ out2
            ++ [ConsoleLog [LF +:+ repeat "=" 60];
                ConsoleLog ["SEQUENTIAL READING RESULTS:"];
                ConsoleLog [repeat "-" 30]]
            ++ (ConsoleLog <$> lines)).
    rewrite <- !app_assoc. reflexivity.
Qed.

(** The summary of a success record and of an error record. *)
Example print_result_example :
  forEach [success_record "file1.txt" "hello world";
           error_record "file2.txt" (ENOENT "file2.txt")] print_result
  = (Normal tt,
     [ConsoleLog ["1. file1.txt: 11 chars - " +:+ DQUOTE +:+ "hello world..." +:+ DQUOTE];
      ConsoleLog ["2. file2.txt: ERROR - ENOENT: no such file or directory, open 'file2.txt'"]]).
Proof. reflexivity. Qed.
